(** * The in-memory Item store of [main.py]

    A shallow embedding of the five item handlers of the example API
    ([get_items], [get_item], [create_item], [update_item], [delete_item])
    over the module-level list [items_db], and the properties of the
    store contract checked against them.

    Python values are modelled as the code has them: an [int] is a [Z]
    (unbounded), an [Optional[int]] an [option Z], a [str] a [string], a
    [float] a binary64 [float], the store a [list Item].  A handler reads and
    writes the global list and may raise: it is a function from the store to
    an outcome and the store it leaves behind. *)

From Stdlib Require Import ZArith String PrimFloat Lia.
From stdpp Require Import base option list strings pretty.

Set Warnings "-inexact-float".

(** ** Data model (main.py, lines 13-29) *)

(** [class Item(BaseModel)] *)
Record Item : Type := mkItem {
  id : option Z;
  name : string;
  description : option string;
  price : float;
  in_stock : bool
}.

(** The assignment [item.id = v]. *)
Definition set_id (item : Item) (v : option Z) : Item :=
  mkItem v (name item) (description item) (price item) (in_stock item).

(** [items_db], as the module initialises it. *)
Definition items_db : list Item :=
  [ mkItem (Some 1%Z) "Laptop" (Some "Un ordinateur portable") 999.99 true;
    mkItem (Some 2%Z) "Mouse" (Some "Une souris sans fil") 29.99 true;
    mkItem (Some 3%Z) "Keyboard" (Some "Un clavier mécanique") 149.99 false ].

(** ** Python semantics used by the handlers *)

(** What a handler can raise.  [HTTPException] is the one the handlers raise
    themselves, [RequestValidationError] is raised by the framework when a
    body does not fit [Item], and [ValueError] is what the builtin [max]
    raises on an empty list. *)
Inductive exn : Type :=
  | HTTPException (status_code : Z) (detail : string)
  | RequestValidationError
  | ValueError.

Inductive outcome (A : Type) : Type :=
  | Return (a : A)
  | Raise (e : exn).
Arguments Return {A} a.
Arguments Raise {A} e.

(** A handler: the store before, the outcome and the store after. *)
Definition M (A : Type) : Type := list Item → outcome A * list Item.

Definition ret {A} (a : A) : M A := λ db, (Return a, db).
Definition raise {A} (e : exn) : M A := λ db, (Raise e, db).
Definition bind {A B} (m : M A) (k : A → M B) : M B :=
  λ db, match m db with
        | (Return a, db') => k a db'
        | (Raise e, db') => (Raise e, db')
        end.
(** Reading the global [items_db], and mutating it. *)
Definition read_db : M (list Item) := λ db, (Return db, db).
Definition write_db (db' : list Item) : M unit := λ _, (Return tt, db').

Notation "'do' x <- m ; k" := (bind m (λ x, k))
  (at level 10, x name, m at level 100, k at level 200).
Notation "m ;; k" := (bind m (λ _, k))
  (at level 100, k at level 200, right associativity).

(** Truth value of an [Optional[int]]: [None] and [0] are false. *)
Definition truthy (o : option Z) : bool :=
  match o with
  | None => false
  | Some k => negb (k =? 0)%Z
  end.

(** [item.id == item_id], an [Optional[int]] against an [int]. *)
Definition id_eq (item : Item) (item_id : Z) : bool :=
  match id item with
  | None => false
  | Some k => (k =? item_id)%Z
  end.

(** The builtin [max] on a list of ints: [ValueError] on the empty list. *)
Definition py_max (l : list Z) : outcome Z :=
  match l with
  | [] => Raise ValueError
  | x :: r => Return (foldl Z.max x r)
  end.

(** [[item for item in l if cond(item)]] *)
Fixpoint comprehension {A} (cond : A → bool) (l : list A) : list A :=
  match l with
  | [] => []
  | item :: rest =>
      if cond item then item :: comprehension cond rest
      else comprehension cond rest
  end.

(** [[i.id for i in l if i.id]]: the ids that are neither [None] nor [0]. *)
Fixpoint truthy_ids (l : list Item) : list Z :=
  match l with
  | [] => []
  | i :: rest =>
      match id i with
      | Some k => if truthy (Some k) then k :: truthy_ids rest
                  else truthy_ids rest
      | None => truthy_ids rest
      end
  end.

(** [for idx, item in enumerate(l): if item.id == item_id: ...]: the index
    and the item at which the loop body is entered, counting from [idx]. *)
Fixpoint enumerate_find (item_id : Z) (l : list Item) (idx : nat)
  : option (nat * Item) :=
  match l with
  | [] => None
  | item :: rest =>
      if id_eq item item_id then Some (idx, item)
      else enumerate_find item_id rest (S idx)
  end.

Definition not_found : exn := HTTPException 404 "Item non trouvé".

(** ** The handlers (main.py, lines 45-86) *)

Definition get_items (in_stock_q : option bool) : M (list Item) :=
  do db <- read_db;
  match in_stock_q with
  | None => ret db
  | Some b => ret (comprehension (λ item, eqb (in_stock item) b) db)
  end.

Definition get_item (item_id : Z) : M Item :=
  do db <- read_db;
  match enumerate_find item_id db 0 with
  | Some (_, item) => ret item
  | None => raise not_found
  end.

Definition create_item (item : Item) : M Item :=
  do db <- read_db;
  do new_id <-
    (match db with
     | _ :: _ =>
         match py_max (truthy_ids db) with
         | Return m => ret (m + 1)%Z
         | Raise e => raise e
         end
     | [] => ret 1%Z
     end);
  let item := set_id item (Some new_id) in
  write_db (db ++ [item]);;
  ret item.

Definition update_item (item_id : Z) (updated_item : Item) : M Item :=
  do db <- read_db;
  match enumerate_find item_id db 0 with
  | Some (idx, _) =>
      let updated_item := set_id updated_item (Some item_id) in
      write_db (<[idx := updated_item]> db);;
      ret updated_item
  | None => raise not_found
  end.

(** The returned dict has the single key ["message"]. *)
Definition delete_item (item_id : Z) : M (list (string * string)) :=
  do db <- read_db;
  match enumerate_find item_id db 0 with
  | Some (idx, _) =>
      write_db (delete idx db);;
      ret [("message"%string,
            "Item " +:+ pretty item_id +:+ " supprimé avec succès")]
  | None => raise not_found
  end.

(** ** The request boundary

    The framework builds the [Item] argument of [create_item] and
    [update_item] from the request body before the handler runs: a field
    the body leaves out takes the default of its declaration in [class Item],
    and a body without [name] or [price] is refused (422) without the handler
    being called. *)

Record Body : Type := mkBody {
  body_id : option Z;
  body_name : option string;
  body_description : option string;
  body_price : option float;
  body_in_stock : option bool
}.

(** The [Item] built from the fields of a body, with the defaults
    [id = None], [description = None], [in_stock = True]. *)
Definition Item_of_body (b : Body) : outcome Item :=
  match body_name b, body_price b with
  | Some n, Some p =>
      Return (mkItem (body_id b) n (body_description b) p
                     (default true (body_in_stock b)))
  | _, _ => Raise RequestValidationError
  end.

(** The five store operations, and what they return. *)
Inductive Op : Type :=
  | List_items (in_stock_q : option bool)
  | Get (item_id : Z)
  | Create (item : Item)
  | Update (item_id : Z) (replacement : Item)
  | Delete (item_id : Z).

Inductive value : Type :=
  | Items (l : list Item)
  | AnItem (item : Item)
  | Message (d : list (string * string)).

Definition exec (op : Op) : M value :=
  match op with
  | List_items q => do l <- get_items q; ret (Items l)
  | Get item_id => do item <- get_item item_id; ret (AnItem item)
  | Create item => do item <- create_item item; ret (AnItem item)
  | Update item_id r => do item <- update_item item_id r; ret (AnItem item)
  | Delete item_id => do d <- delete_item item_id; ret (Message d)
  end.

(** The store left by a sequence of operations, whether they return or
    raise. *)
Definition run (ops : list Op) (db : list Item) : list Item :=
  foldl (λ db op, (exec op db).2) db ops.

(** The routes of the item endpoints. *)
Inductive Request : Type :=
  | GET_items (in_stock_q : option bool)
  | GET_item (item_id : Z)
  | POST_items (body : Body)
  | PUT_item (item_id : Z) (body : Body)
  | DELETE_item (item_id : Z).

Definition route (r : Request) : outcome Op :=
  match r with
  | GET_items q => Return (List_items q)
  | GET_item item_id => Return (Get item_id)
  | POST_items body =>
      match Item_of_body body with
      | Return item => Return (Create item)
      | Raise e => Raise e
      end
  | PUT_item item_id body =>
      match Item_of_body body with
      | Return item => Return (Update item_id item)
      | Raise e => Raise e
      end
  | DELETE_item item_id => Return (Delete item_id)
  end.

Definition handle (r : Request) : M value :=
  match route r with
  | Return op => exec op
  | Raise e => raise e
  end.

(** ** The store contract *)

(** The two error kinds of the contract, and the exceptions that surface as
    them: a 404 [HTTPException] and the framework's validation error. *)
Inductive ErrorKind : Type := NotFound | ValidationError.

Definition error_kind (e : exn) : option ErrorKind :=
  match e with
  | HTTPException status_code _ =>
      if (status_code =? 404)%Z then Some NotFound else None
  | RequestValidationError => Some ValidationError
  | ValueError => None
  end.

Definition returns {A} (o : outcome A) : Prop :=
  match o with Return _ => True | Raise _ => False end.

Definition returns_or_known_error {A} (o : outcome A) : Prop :=
  match o with Return _ => True | Raise e => is_Some (error_kind e) end.

(** Every stored item has a non-null, unique id. *)
Definition store_invariant (db : list Item) : Prop :=
  Forall (λ item, id item ≠ None) db ∧ NoDup (id <$> db).

(** Every stored id is neither null nor zero. *)
Definition ids_truthy (db : list Item) : Prop :=
  Forall (λ item, truthy (id item) = true) db.

(** Every stored id is a positive integer, and no two are equal. *)
Definition positive_unique (db : list Item) : Prop :=
  Forall (λ item, ∃ k, id item = Some k ∧ (0 < k)%Z) db ∧ NoDup (id <$> db).

(** [max(l, default=d)] *)
Definition max_default (d : Z) (l : list Z) : Z :=
  match l with
  | [] => d
  | x :: r => foldl Z.max x r
  end.

(** The id the contract gives a new item:
    [max(existing ids, default 0) + 1]. *)
Definition next_id (db : list Item) : Z :=
  (max_default 0 (omap id db) + 1)%Z.

(** The contract of Create on a store [db]: the item is stored at the end
    under [next_id db] and returned. *)
Definition create_contract (db : list Item) (item : Item) : Prop :=
  let stored := set_id item (Some (next_id db)) in
  create_item item db = (Return stored, db ++ [stored])
  ∧ (db = [] → id stored = Some 1%Z)
  ∧ length (create_item item db).2 = S (length db).

(** No fatal error: every request returns or fails with one of the two
    kinds, and List and Create return. *)
Definition no_fatal_error (db : list Item) : Prop :=
  (∀ r, returns_or_known_error (handle r db).1)
  ∧ (∀ q, returns (get_items q db).1)
  ∧ (∀ item, returns (create_item item db).1).

(** Create, then Get of the returned id, gives the created item back. *)
Definition create_get_roundtrip (db : list Item) (item : Item) : Prop :=
  ∃ created k db',
    create_item item db = (Return created, db')
    ∧ id created = Some k
    ∧ get_item k db' = (Return created, db').

(** [i] is the first position of [db] holding an item of id [item_id]. *)
Definition first_match (item_id : Z) (db : list Item) (i : nat) : Prop :=
  (∃ item, db !! i = Some item ∧ id item = Some item_id)
  ∧ ∀ j item, j < i → db !! j = Some item → id item ≠ Some item_id.

(** ** The other endpoints and the test fixture *)

(** [class HealthResponse(BaseModel)] *)
Record HealthResponse : Type := mkHealthResponse {
  status : string;
  version : string
}.

(** [root] (main.py, lines 31-38): a dict of three keys. *)
Definition root : M (list (string * string)) :=
  ret [("message"%string, "Bienvenue sur l'API d'exemple! v5.7"%string);
       ("docs"%string, "/docs"%string);
       ("health"%string, "/health"%string)].

(** [health_check] (main.py, lines 40-43) *)
Definition health_check : M HealthResponse :=
  ret (mkHealthResponse "healthy" "1.0.0").

(** The fixture [reset_db] of test_main.py (lines 8-16), run before each
    test: [items_db.clear()], then [items_db.extend] with the three seed
    records. *)
Definition reset_db : M unit :=
  write_db [];;
  do db <- read_db;
  write_db (db ++ items_db).

(** The ids of the stored items, in store order. *)
Definition ids (db : list Item) : list (option Z) := id <$> db.

(** * Properties *)

(** ** The primitives *)

Lemma id_eq_true (item : Item) (item_id : Z) :
  id_eq item item_id = true ↔ id item = Some item_id.
Proof.
  unfold id_eq. destruct (id item) as [k|]; [|done].
  rewrite Z.eqb_eq. split; congruence.
Qed.

Lemma id_eq_false (item : Item) (item_id : Z) :
  id_eq item item_id = false ↔ id item ≠ Some item_id.
Proof.
  rewrite <- id_eq_true. destruct (id_eq item item_id); split; congruence.
Qed.

Lemma truthy_Some (o : option Z) :
  truthy o = true ↔ ∃ k, o = Some k ∧ k ≠ 0%Z.
Proof.
  destruct o as [k|]; simpl.
  - rewrite negb_true_iff, Z.eqb_neq. split; [eauto|].
    by intros (k' & [= <-] & ?).
  - split; [done|]. by intros (k & ? & _).
Qed.

Section Lookup.
Variable item_id : Z.

(** The loop is a search for the first item of the given id. *)
Lemma enumerate_find_list_find (l : list Item) (idx : nat) :
  enumerate_find item_id l idx
  = prod_map (λ i, idx + i) (λ x, x)
      <$> list_find (λ item, id item = Some item_id) l.
Proof.
  revert idx. induction l as [|item rest IH]; intros idx; [done|].
  cbn [enumerate_find list_find]. destruct (id_eq item item_id) eqn:E.
  - apply id_eq_true in E. rewrite decide_True by done. simpl.
    by rewrite Nat.add_0_r.
  - apply id_eq_false in E. rewrite decide_False by done.
    rewrite IH. destruct (list_find _ rest) as [[i x]|]; simpl; [|done].
    do 2 f_equal. lia.
Qed.

Lemma enumerate_find_Some (db : list Item) (i : nat) (item : Item) :
  enumerate_find item_id db 0 = Some (i, item)
  ↔ db !! i = Some item ∧ first_match item_id db i.
Proof.
  rewrite enumerate_find_list_find. unfold first_match. split.
  - intros ([j x] & Hf & [= <- <-])%fmap_Some.
    apply list_find_Some in Hf as (? & ? & ?). simpl. eauto 6.
  - intros (Hi & (x & Hx & Hid) & Hleast).
    assert (x = item) as -> by congruence.
    apply fmap_Some. exists (i, item). split; [|done].
    apply list_find_Some. eauto.
Qed.

Lemma enumerate_find_None (db : list Item) :
  enumerate_find item_id db 0 = None
  ↔ ∀ item, item ∈ db → id item ≠ Some item_id.
Proof.
  rewrite enumerate_find_list_find, fmap_None, list_find_None.
  apply Forall_forall.
Qed.

(** When some stored item has the id, the loop stops at the first one. *)
Lemma enumerate_find_elem_of (db : list Item) (item : Item) :
  item ∈ db → id item = Some item_id →
  ∃ i first, enumerate_find item_id db 0 = Some (i, first)
             ∧ db !! i = Some first ∧ first_match item_id db i.
Proof.
  intros Hin Hid.
  destruct (enumerate_find item_id db 0) as [[i first]|] eqn:E.
  - exists i, first. split; [done|]. by apply enumerate_find_Some.
  - exfalso. by eapply enumerate_find_None.
Qed.
End Lookup.

(** ** List *)

Section Comprehension.
Context {A : Type} (cond : A → bool).

Lemma comprehension_filter (l : list A) :
  comprehension cond l = filter (λ x, cond x = true) l.
Proof.
  induction l as [|x l IH]; [done|]. simpl. rewrite filter_cons, IH.
  destruct (cond x); [by rewrite decide_True|by rewrite decide_False].
Qed.

Lemma comprehension_sublist (l : list A) :
  comprehension cond l `sublist_of` l.
Proof. rewrite comprehension_filter. apply sublist_filter. Qed.

Lemma comprehension_Forall (l : list A) :
  Forall (λ x, cond x = true) (comprehension cond l).
Proof.
  induction l as [|x l IH]; simpl; [constructor|].
  destruct (cond x) eqn:E; [by constructor|done].
Qed.

(** Nothing that satisfies the condition is left out: every subsequence
    of accepted elements is a subsequence of the result. *)
Lemma comprehension_greatest (l k : list A) :
  k `sublist_of` l → Forall (λ x, cond x = true) k →
  k `sublist_of` comprehension cond l.
Proof.
  induction 1 as [|x k l _ IH|x k l _ IH]; intros Hk; simpl.
  - constructor.
  - apply Forall_cons in Hk as [-> Hk]. by constructor; apply IH.
  - destruct (cond x); [constructor|]; by apply IH.
Qed.
End Comprehension.

(** C6: List with a filter [b] returns exactly the stored items whose
    [in_stock] is [b], in the order of the store (it is the greatest
    subsequence of the store made of such items), and List without a filter
    returns the whole store in its order. *)
Theorem get_items_filter (db : list Item) :
  get_items None db = (Return db, db)
  ∧ ∀ b : bool, ∃ l,
      get_items (Some b) db = (Return l, db)
      ∧ l = filter (λ item, in_stock item = b) db
      ∧ l `sublist_of` db
      ∧ Forall (λ item, in_stock item = b) l
      ∧ ∀ k, k `sublist_of` db → Forall (λ item, in_stock item = b) k →
             k `sublist_of` l.
Proof.
  split; [done|]. intros b.
  exists (comprehension (λ item, eqb (in_stock item) b) db).
  assert (Heq : ∀ P, Forall (λ item, eqb (in_stock item) b = true) P
                     ↔ Forall (λ item, in_stock item = b) P).
  { intros P. apply Forall_proper; [|done]. intros x. apply eqb_true_iff. }
  split_and!.
  - done.
  - rewrite comprehension_filter. apply list_filter_iff.
    intros x. apply eqb_true_iff.
  - apply comprehension_sublist.
  - apply Heq, comprehension_Forall.
  - intros k Hk HF. apply comprehension_greatest; [done|]. by apply Heq.
Qed.

(** C10: List and Get are pure reads: whatever the filter and the id,
    present or absent, the store is left as it was. *)
Theorem reads_leave_store (db : list Item) (q : option bool) (item_id : Z) :
  (get_items q db).2 = db ∧ (get_item item_id db).2 = db.
Proof.
  split.
  - by destruct q.
  - unfold get_item, bind, read_db.
    by destruct (enumerate_find item_id db 0) as [[i item]|].
Qed.

(** ** Get, Update and Delete on an absent id *)

(** C4: for an id that no stored item carries, Get, Update and Delete each
    raise the 404 [HTTPException] of detail "Item non trouvé", which is the
    NotFound kind, and leave the store unchanged. *)
Theorem absent_id_not_found (db : list Item) (item_id : Z) (r : Item) :
  (∀ item, item ∈ db → id item ≠ Some item_id) →
  get_item item_id db = (Raise (HTTPException 404 "Item non trouvé"), db)
  ∧ update_item item_id r db
    = (Raise (HTTPException 404 "Item non trouvé"), db)
  ∧ delete_item item_id db
    = (Raise (HTTPException 404 "Item non trouvé"), db)
  ∧ error_kind (HTTPException 404 "Item non trouvé") = Some NotFound.
Proof.
  intros Habsent%enumerate_find_None.
  unfold get_item, update_item, delete_item, bind, read_db.
  by rewrite Habsent.
Qed.

Lemma absent_id_not_found_witness :
  (∀ item, item ∈ items_db → id item ≠ Some 999%Z)
  ∧ get_item 999 items_db = (Raise (HTTPException 404 "Item non trouvé"), items_db)
  ∧ delete_item 999 items_db
    = (Raise (HTTPException 404 "Item non trouvé"), items_db).
Proof.
  assert (H : ∀ item, item ∈ items_db → id item ≠ Some 999%Z).
  { apply enumerate_find_None. vm_compute. reflexivity. }
  split; [exact H|].
  destruct (absent_id_not_found items_db 999 (mkItem None "Ghost Item" None 99.99 true) H)
    as (Hg & _ & Hd & _).
  split; [exact Hg|exact Hd].
Defined.

(** ** Update and Delete on a stored id *)

(** C5: when some stored item has the id, Update puts the replacement, its
    id forced to the given one, at the position of the first such item,
    leaves every other position as it was, and returns the stored item. *)
Theorem update_item_in_place (db : list Item) (item_id : Z) (r : Item) :
  (∃ item, item ∈ db ∧ id item = Some item_id) →
  ∃ i, first_match item_id db i
    ∧ let stored := set_id r (Some item_id) in
      update_item item_id r db = (Return stored, <[i := stored]> db)
      ∧ <[i := stored]> db !! i = Some stored
      ∧ (∀ j, j ≠ i → <[i := stored]> db !! j = db !! j)
      ∧ length (<[i := stored]> db) = length db
      ∧ stored = mkItem (Some item_id) (name r) (description r) (price r)
                        (in_stock r).
Proof.
  intros (item & Hin & Hid).
  destruct (enumerate_find_elem_of item_id db item Hin Hid)
    as (i & first & Hfind & Hi & Hfirst).
  exists i. split; [done|]. cbn zeta. split_and!.
  - unfold update_item, bind, read_db. by rewrite Hfind.
  - apply list_lookup_insert_eq. by eapply lookup_lt_Some.
  - intros j Hj. by apply list_lookup_insert_ne.
  - apply length_insert.
  - done.
Qed.

Lemma update_item_in_place_witness :
  ∃ i, first_match 3 items_db i
    ∧ let stored := set_id (mkItem (Some 7%Z) "Premium Keyboard" None 199.5 true)
                           (Some 3%Z) in
      update_item 3 (mkItem (Some 7%Z) "Premium Keyboard" None 199.5 true)
        items_db
      = (Return stored, <[i := stored]> items_db)
      ∧ <[i := stored]> items_db !! i = Some stored
      ∧ (∀ j, j ≠ i → <[i := stored]> items_db !! j = items_db !! j)
      ∧ length (<[i := stored]> items_db) = length items_db
      ∧ stored = mkItem (Some 3%Z) "Premium Keyboard" None 199.5 true.
Proof.
  apply (update_item_in_place items_db 3).
  exists (mkItem (Some 3%Z) "Keyboard" (Some "Un clavier mécanique")
                 149.99 false).
  split; [|reflexivity]. unfold items_db. do 2 right. left.
Defined.

(** C9: when some stored item has the id, Delete removes the first such
    item and no other: the store is one shorter, the items before it keep
    their positions and the items after it move up by one, in order. *)
Theorem delete_item_first_match (db : list Item) (item_id : Z) :
  (∃ item, item ∈ db ∧ id item = Some item_id) →
  ∃ i, first_match item_id db i
    ∧ delete_item item_id db
      = (Return [("message"%string,
                  "Item " +:+ pretty item_id +:+ " supprimé avec succès")],
         delete i db)
    ∧ delete i db = take i db ++ drop (S i) db
    ∧ S (length (delete i db)) = length db
    ∧ (∀ j, j < i → delete i db !! j = db !! j)
    ∧ (∀ j, i ≤ j → delete i db !! j = db !! S j).
Proof.
  intros (item & Hin & Hid).
  destruct (enumerate_find_elem_of item_id db item Hin Hid)
    as (i & first & Hfind & Hi & Hfirst).
  exists i. split; [done|]. split_and!.
  - unfold delete_item, bind, read_db. by rewrite Hfind.
  - apply delete_take_drop.
  - rewrite length_delete by eauto. apply lookup_lt_Some in Hi. lia.
  - intros j Hj. by apply list_lookup_delete_lt.
  - intros j Hj. by apply list_lookup_delete_ge.
Qed.

Lemma delete_item_first_match_witness :
  ∃ i, first_match 2 items_db i
    ∧ delete_item 2 items_db
      = (Return [("message"%string,
                  "Item " +:+ pretty 2%Z +:+ " supprimé avec succès")],
         delete i items_db)
    ∧ delete i items_db = take i items_db ++ drop (S i) items_db
    ∧ S (length (delete i items_db)) = length items_db
    ∧ (∀ j, j < i → delete i items_db !! j = items_db !! j)
    ∧ (∀ j, i ≤ j → delete i items_db !! j = items_db !! S j).
Proof.
  apply (delete_item_first_match items_db 2).
  exists (mkItem (Some 2%Z) "Mouse" (Some "Une souris sans fil") 29.99 true).
  split; [|reflexivity]. unfold items_db. right. left.
Defined.

(** ** Id generation *)

Lemma foldl_max_le (x : Z) (r : list Z) :
  (x ≤ foldl Z.max x r)%Z ∧ ∀ y, y ∈ r → (y ≤ foldl Z.max x r)%Z.
Proof.
  revert x. induction r as [|z r IH]; intros x; simpl.
  - split; [lia|]. by intros y ?%elem_of_nil.
  - destruct (IH (Z.max x z)) as [H1 H2]. split; [lia|].
    intros y [->|Hy]%elem_of_cons; [lia|by apply H2].
Qed.

Lemma max_default_le (d : Z) (l : list Z) (y : Z) :
  y ∈ l → (y ≤ max_default d l)%Z.
Proof.
  destruct l as [|x r]; [by intros ?%elem_of_nil|]. simpl.
  destruct (foldl_max_le x r) as [H1 H2].
  intros [->|Hy]%elem_of_cons; [done|by apply H2].
Qed.

Lemma py_max_max_default (l : list Z) :
  l ≠ [] → py_max l = Return (max_default 0 l).
Proof. by destruct l. Qed.

(** On a store whose ids are all truthy the comprehension keeps every id. *)
Lemma truthy_ids_omap (db : list Item) :
  ids_truthy db → truthy_ids db = omap id db.
Proof.
  induction 1 as [|item db Hitem _ IH]; [done|]. cbn [truthy_ids].
  change (omap id (item :: db))
    with (match id item with Some k => k :: omap id db | None => omap id db end).
  destruct (id item) as [k|]; [|done].
  by rewrite Hitem, IH.
Qed.

Lemma ids_truthy_omap_nil (db : list Item) :
  ids_truthy db → omap id db = [] → db = [].
Proof.
  destruct 1 as [|item db Hitem _]; [done|]. simpl.
  by destruct (id item).
Qed.

(** Every stored id is below the next id. *)
Lemma next_id_above (db : list Item) (item : Item) (k : Z) :
  item ∈ db → id item = Some k → (k < next_id db)%Z.
Proof.
  intros Hin Hid. unfold next_id.
  assert (k ∈ omap id db) by (apply list_elem_of_omap; eauto).
  pose proof (max_default_le 0 _ _ H). lia.
Qed.

Lemma create_item_truthy (db : list Item) (item : Item) :
  ids_truthy db →
  create_item item db
  = (Return (set_id item (Some (next_id db))),
     db ++ [set_id item (Some (next_id db))]).
Proof.
  intros Hdb. unfold create_item, bind, read_db, next_id.
  destruct db as [|first rest]; [done|].
  rewrite truthy_ids_omap by done.
  rewrite py_max_max_default; [done|].
  intros Hnil. by apply ids_truthy_omap_nil in Hnil.
Qed.

(** C1, amended: on every store whose ids are all non-null and nonzero,
    Create stores the item at the end under the id
    [max(existing ids, default 0) + 1], which is 1 on the empty store,
    returns the stored item, and the store grows by exactly one. *)
Theorem create_item_next_id (db : list Item) (item : Item) :
  ids_truthy db → create_contract db item.
Proof.
  intros Hdb. unfold create_contract. cbn zeta.
  rewrite create_item_truthy by done. split_and!.
  - done.
  - by intros ->.
  - simpl. rewrite length_app. simpl. lia.
Qed.

Lemma create_item_next_id_witness :
  ids_truthy items_db
  ∧ create_contract items_db (mkItem None "Monitor" None 399.99 true)
  ∧ next_id items_db = 4%Z.
Proof.
  assert (H : ids_truthy items_db) by (repeat constructor).
  split; [exact H|]. split; [|reflexivity].
  apply (create_item_next_id items_db _ H).
Defined.

(** C1 as stated fails: the store holding one item of id 0 has non-null,
    unique ids, and Create raises [ValueError] on it instead of storing the
    item under id 1. *)
Lemma create_item_zero_id :
  store_invariant [mkItem (Some 0%Z) "Cable" None 4.5 true]
  ∧ create_item (mkItem None "Monitor" None 399.99 true)
      [mkItem (Some 0%Z) "Cable" None 4.5 true]
    = (Raise ValueError, [mkItem (Some 0%Z) "Cable" None 4.5 true])
  ∧ ¬ create_contract [mkItem (Some 0%Z) "Cable" None 4.5 true]
        (mkItem None "Monitor" None 399.99 true).
Proof.
  split_and!.
  - split; [by repeat constructor|]. apply NoDup_singleton.
  - reflexivity.
  - intros [H _]. vm_compute in H. discriminate H.
Qed.

(** The item Create appends is the first one of its id. *)
Lemma enumerate_find_created (db : list Item) (item : Item) :
  enumerate_find (next_id db) (db ++ [set_id item (Some (next_id db))]) 0
  = Some (length db, set_id item (Some (next_id db))).
Proof.
  apply enumerate_find_Some.
  assert (Hlast : (db ++ [set_id item (Some (next_id db))]) !! length db
                  = Some (set_id item (Some (next_id db)))).
  { by rewrite lookup_app_r, Nat.sub_diag by lia. }
  split; [done|]. split; [eauto|].
  intros j old Hj Hold Hid. rewrite lookup_app_l in Hold by done.
  apply list_elem_of_lookup_2 in Hold.
  pose proof (next_id_above db old _ Hold Hid). lia.
Qed.

(** C7, amended: on every store whose ids are all non-null and nonzero,
    Create followed by Get of the returned id returns the created item,
    with its assigned id. *)
Theorem create_then_get (db : list Item) (item : Item) :
  ids_truthy db → create_get_roundtrip db item.
Proof.
  intros Hdb.
  exists (set_id item (Some (next_id db))), (next_id db),
         (db ++ [set_id item (Some (next_id db))]).
  split_and!; [by apply create_item_truthy|done|].
  unfold get_item, bind, read_db. by rewrite enumerate_find_created.
Qed.

Lemma create_then_get_witness :
  ids_truthy items_db
  ∧ create_get_roundtrip items_db (mkItem None "Headphones"
      (Some "Casque sans fil") 199.99 true).
Proof.
  assert (H : ids_truthy items_db) by (repeat constructor).
  split; [exact H|]. apply (create_then_get items_db _ H).
Defined.

(** C7 as stated fails: the ids -1 and 0 are non-null and unique, Create
    gives the new item the id 0 (0 is skipped when the maximum is taken),
    and Get of 0 returns the item that had it before. *)
Lemma create_then_get_zero_id :
  store_invariant [mkItem (Some (-1)%Z) "Cable" None 4.5 true;
                   mkItem (Some 0%Z) "Plug" None 2.5 true]
  ∧ ¬ create_get_roundtrip
        [mkItem (Some (-1)%Z) "Cable" None 4.5 true;
         mkItem (Some 0%Z) "Plug" None 2.5 true]
        (mkItem None "Monitor" None 399.99 true).
Proof.
  split.
  - split; [by repeat constructor|].
    apply (bool_decide_unpack _). vm_compute. exact I.
  - intros (created & k & db' & Hcreate & Hid & Hget).
    vm_compute in Hcreate. injection Hcreate as <- <-.
    injection Hid as <-. vm_compute in Hget. discriminate Hget.
Qed.

(** ** Errors *)

Lemma not_found_known : error_kind not_found = Some NotFound.
Proof. reflexivity. Qed.

Lemma get_item_outcome (db : list Item) (item_id : Z) :
  (∃ item, get_item item_id db = (Return item, db))
  ∨ get_item item_id db = (Raise not_found, db).
Proof.
  unfold get_item, bind, read_db.
  destruct (enumerate_find item_id db 0) as [[i item]|]; eauto.
Qed.

Lemma update_item_found (db : list Item) (item_id : Z) (r : Item) i first :
  enumerate_find item_id db 0 = Some (i, first) →
  update_item item_id r db
  = (Return (set_id r (Some item_id)), <[i := set_id r (Some item_id)]> db).
Proof. intros H. unfold update_item, bind, read_db. by rewrite H. Qed.

Lemma update_item_absent (db : list Item) (item_id : Z) (r : Item) :
  enumerate_find item_id db 0 = None →
  update_item item_id r db = (Raise not_found, db).
Proof. intros H. unfold update_item, bind, read_db. by rewrite H. Qed.

Lemma delete_item_found (db : list Item) (item_id : Z) i first :
  enumerate_find item_id db 0 = Some (i, first) →
  delete_item item_id db
  = (Return [("message"%string,
              "Item " +:+ pretty item_id +:+ " supprimé avec succès")],
     delete i db).
Proof. intros H. unfold delete_item, bind, read_db. by rewrite H. Qed.

Lemma delete_item_absent (db : list Item) (item_id : Z) :
  enumerate_find item_id db 0 = None →
  delete_item item_id db = (Raise not_found, db).
Proof. intros H. unfold delete_item, bind, read_db. by rewrite H. Qed.

(** Wrapping the result of a handler changes neither whether it raises nor
    the store it leaves. *)
Lemma bind_ret_fst {A B} (m : M A) (f : A → B) (db : list Item) :
  (bind m (λ a, ret (f a)) db).1
  = match (m db).1 with Return a => Return (f a) | Raise e => Raise e end.
Proof. unfold bind, ret. by destruct (m db) as [[a|e] db']. Qed.

Lemma bind_ret_snd {A B} (m : M A) (f : A → B) (db : list Item) :
  (bind m (λ a, ret (f a)) db).2 = (m db).2.
Proof. unfold bind, ret. by destruct (m db) as [[a|e] db']. Qed.

(** An operation on a store with truthy ids returns, or raises the 404. *)
Lemma exec_outcome (db : list Item) (op : Op) :
  ids_truthy db →
  returns (exec op db).1 ∨ (exec op db).1 = Raise not_found.
Proof.
  intros Hdb. destruct op as [q|n|item|n r|n]; unfold exec;
    rewrite bind_ret_fst.
  - left. by destruct q.
  - destruct (get_item_outcome db n) as [[item ->]| ->]; [by left|by right].
  - left. by rewrite create_item_truthy.
  - destruct (enumerate_find n db 0) as [[i first]|] eqn:E.
    + left. by erewrite update_item_found.
    + right. by rewrite update_item_absent.
  - destruct (enumerate_find n db 0) as [[i first]|] eqn:E.
    + left. by erewrite delete_item_found.
    + right. by rewrite delete_item_absent.
Qed.

(** C2, amended: from every store whose ids are all non-null and nonzero,
    every request returns or fails with NotFound or ValidationError, and
    List and Create return. *)
Theorem no_fatal_error_truthy (db : list Item) :
  ids_truthy db → no_fatal_error db.
Proof.
  intros Hdb. split_and!.
  - intros r. unfold handle. destruct (route r) as [op|e] eqn:Hroute.
    + destruct (exec_outcome db op Hdb) as [H|H].
      * by destruct (exec op db).1.
      * rewrite H. simpl. eauto.
    + assert (e = RequestValidationError) as ->.
      { destruct r as [q|n|body|n body|n]; simpl in Hroute; try done;
          unfold Item_of_body in Hroute;
          destruct (body_name body), (body_price body); congruence. }
      simpl. eauto.
  - intros q. by destruct q.
  - intros item. by rewrite create_item_truthy.
Qed.

Lemma no_fatal_error_truthy_witness :
  ids_truthy items_db ∧ no_fatal_error items_db.
Proof.
  assert (H : ids_truthy items_db) by (repeat constructor).
  split; [exact H|]. apply (no_fatal_error_truthy items_db H).
Defined.

(** C2 as stated fails: on the store holding one item of id 0, whose ids
    are non-null and unique, Create raises [ValueError], which is neither
    of the two kinds. *)
Lemma fatal_error_zero_id :
  store_invariant [mkItem (Some 0%Z) "Plug" None 2.5 true]
  ∧ (create_item (mkItem None "Monitor" None 399.99 true)
       [mkItem (Some 0%Z) "Plug" None 2.5 true]).1 = Raise ValueError
  ∧ error_kind ValueError = None
  ∧ ¬ no_fatal_error [mkItem (Some 0%Z) "Plug" None 2.5 true].
Proof.
  split_and!.
  - split; [by repeat constructor|]. apply NoDup_singleton.
  - reflexivity.
  - reflexivity.
  - intros (_ & _ & H).
    exact (H (mkItem None "Monitor" None 399.99 true)).
Qed.

(** ** The invariant *)

Lemma positive_unique_truthy (db : list Item) :
  positive_unique db → ids_truthy db.
Proof.
  intros [Hpos _]. eapply Forall_impl; [exact Hpos|].
  intros item (k & Hid & Hk). apply truthy_Some. exists k. split; [done|lia].
Qed.

Lemma positive_unique_invariant (db : list Item) :
  positive_unique db → store_invariant db.
Proof.
  intros [Hpos Hdup]. split; [|done]. eapply Forall_impl; [exact Hpos|].
  intros item (k & Hid & _). congruence.
Qed.

Lemma next_id_positive (db : list Item) :
  Forall (λ item, ∃ k, id item = Some k ∧ (0 < k)%Z) db → (0 < next_id db)%Z.
Proof.
  destruct 1 as [|item db (k & Hid & Hk) _]; [done|].
  assert (Hin : item ∈ item :: db) by left.
  pose proof (next_id_above _ _ _ Hin Hid). lia.
Qed.

Lemma create_item_positive_unique (db : list Item) (item : Item) :
  positive_unique db → positive_unique (create_item item db).2.
Proof.
  intros Hdb. rewrite create_item_truthy by by apply positive_unique_truthy.
  destruct Hdb as [Hpos Hdup]. simpl. split.
  - apply Forall_app. split; [done|]. apply Forall_singleton.
    exists (next_id db). split; [done|]. by apply next_id_positive.
  - rewrite fmap_app. apply NoDup_app. split_and!; [done| |apply NoDup_singleton].
    intros x (old & -> & Hold)%list_elem_of_fmap Hx%list_elem_of_singleton.
    simpl in Hx. pose proof (next_id_above db old _ Hold Hx). lia.
Qed.

Lemma update_item_positive_unique (db : list Item) (item_id : Z) (r : Item) :
  positive_unique db → positive_unique (update_item item_id r db).2.
Proof.
  intros [Hpos Hdup].
  destruct (enumerate_find item_id db 0) as [[i first]|] eqn:E.
  - erewrite update_item_found by done. simpl.
    apply enumerate_find_Some in E as (Hi & ((x & Hx & Hid) & _)).
    assert (x = first) as -> by congruence.
    split.
    + apply Forall_insert; [done|].
      destruct (Forall_lookup_1 _ _ _ _ Hpos Hi) as (k & Hk & ?).
      exists item_id. split; [done|]. congruence.
    + rewrite list_fmap_insert. simpl. rewrite list_insert_id; [done|].
      by rewrite list_lookup_fmap, Hi, <- Hid.
  - by rewrite update_item_absent.
Qed.

Lemma delete_item_positive_unique (db : list Item) (item_id : Z) :
  positive_unique db → positive_unique (delete_item item_id db).2.
Proof.
  intros [Hpos Hdup].
  destruct (enumerate_find item_id db 0) as [[i first]|] eqn:E.
  - erewrite delete_item_found by done. simpl. split.
    + by apply Forall_delete.
    + rewrite list_fmap_delete.
      eapply sublist_NoDup; [exact Hdup|apply sublist_delete].
  - by rewrite delete_item_absent.
Qed.

Lemma get_items_store (db : list Item) (q : option bool) :
  (get_items q db).2 = db.
Proof. by destruct q. Qed.

Lemma get_item_store (db : list Item) (item_id : Z) :
  (get_item item_id db).2 = db.
Proof. by destruct (get_item_outcome db item_id) as [[item ->]| ->]. Qed.

Lemma exec_positive_unique (db : list Item) (op : Op) :
  positive_unique db → positive_unique (exec op db).2.
Proof.
  intros Hdb. destruct op as [q|n|item|n r|n]; unfold exec;
    rewrite bind_ret_snd.
  - by rewrite get_items_store.
  - by rewrite get_item_store.
  - by apply create_item_positive_unique.
  - by apply update_item_positive_unique.
  - by apply delete_item_positive_unique.
Qed.

Lemma run_positive_unique (ops : list Op) (db : list Item) :
  positive_unique db → positive_unique (run ops db).
Proof.
  revert db. induction ops as [|op ops IH]; intros db Hdb; [done|].
  apply IH. by apply exec_positive_unique.
Qed.

Lemma items_db_positive_unique : positive_unique items_db.
Proof.
  split.
  - repeat constructor; eexists; (split; [reflexivity|lia]).
  - apply (bool_decide_unpack _). vm_compute. exact I.
Qed.

(** C3: from the three seed records, every store reached by a sequence of
    List, Get, Create, Update and Delete operations has only non-null,
    pairwise distinct ids. *)
Theorem reachable_store_invariant (ops : list Op) :
  store_invariant (run ops items_db).
Proof.
  apply positive_unique_invariant, run_positive_unique,
    items_db_positive_unique.
Qed.

(** ** Update is a full replacement *)

(** C8: a PUT whose body leaves [in_stock] out, on an id that some stored
    item has, replaces the first such item by a whole new record: the name,
    description and price are those of the body (no description when the
    body has none), the id is the one of the path, and [in_stock] is the
    default [true].  Nothing of the replaced item is kept, whatever its
    flag was, and every other position of the store is as before. *)
Theorem put_without_in_stock (db : list Item) (item_id : Z) (body : Body)
    (n : string) (p : float) :
  body_name body = Some n → body_price body = Some p →
  body_in_stock body = None →
  (∃ item, item ∈ db ∧ id item = Some item_id) →
  ∃ i old, db !! i = Some old ∧ first_match item_id db i
    ∧ let stored :=
        mkItem (Some item_id) n (body_description body) p true in
      handle (PUT_item item_id body) db
      = (Return (AnItem stored), <[i := stored]> db)
      ∧ <[i := stored]> db !! i = Some stored
      ∧ (∀ j, j ≠ i → <[i := stored]> db !! j = db !! j)
      ∧ length (<[i := stored]> db) = length db
      ∧ in_stock stored = true.
Proof.
  intros Hname Hprice Hstock (item & Hin & Hid).
  destruct (enumerate_find_elem_of item_id db item Hin Hid)
    as (i & first & Hfind & Hi & Hfirst).
  exists i, first. split; [done|]. split; [done|]. cbn zeta. split_and!.
  - unfold handle, route, Item_of_body.
    rewrite Hname, Hprice, Hstock. unfold exec, bind at 1.
    by erewrite update_item_found.
  - apply list_lookup_insert_eq. by eapply lookup_lt_Some.
  - intros j Hj. by apply list_lookup_insert_ne.
  - apply length_insert.
  - done.
Qed.

Lemma put_without_in_stock_witness :
  ∃ i old, items_db !! i = Some old ∧ first_match 3 items_db i
    ∧ let stored := mkItem (Some 3%Z) "Renamed" None 129.5 true in
      handle (PUT_item 3 (mkBody (Some 9%Z) (Some "Renamed"%string) None
                            (Some 129.5%float) None)) items_db
      = (Return (AnItem stored), <[i := stored]> items_db)
      ∧ <[i := stored]> items_db !! i = Some stored
      ∧ (∀ j, j ≠ i → <[i := stored]> items_db !! j = items_db !! j)
      ∧ length (<[i := stored]> items_db) = length items_db
      ∧ in_stock stored = true.
Proof.
  apply (put_without_in_stock items_db 3
           (mkBody (Some 9%Z) (Some "Renamed"%string) None
                   (Some 129.5%float) None) "Renamed" 129.5);
    [reflexivity..|].
  exists (mkItem (Some 3%Z) "Keyboard" (Some "Un clavier mécanique")
                 149.99 false).
  split; [|reflexivity]. unfold items_db. do 2 right. left.
Defined.

(** On the seed store: the keyboard, stored out of stock with a
    description, is replaced by the record of the body, in stock and
    without description; the two other records are untouched. *)
Example put_resets_keyboard :
  (handle (PUT_item 3 (mkBody (Some 9%Z) (Some "Renamed"%string) None
                         (Some 129.5%float) None)) items_db).2
  = [ mkItem (Some 1%Z) "Laptop" (Some "Un ordinateur portable") 999.99 true;
      mkItem (Some 2%Z) "Mouse" (Some "Une souris sans fil") 29.99 true;
      mkItem (Some 3%Z) "Renamed" None 129.5 true ].
Proof. reflexivity. Qed.

(** ** Where id generation fails *)

(** Create raises exactly on the nonempty stores none of whose ids is
    truthy; it raises [ValueError] and leaves the store as it was. *)
Lemma create_item_raises (db : list Item) (item : Item) :
  (∃ e, (create_item item db).1 = Raise e)
  ↔ db ≠ [] ∧ Forall (λ i, truthy (id i) = false) db.
Proof.
  assert (Hnil : truthy_ids db = [] ↔ Forall (λ i, truthy (id i) = false) db).
  { induction db as [|i db IH]; [by split; [constructor|]|].
    cbn [truthy_ids]. rewrite Forall_cons, <- IH.
    destruct (id i) as [k|]; [|by intuition].
    destruct (truthy (Some k)); [|by intuition].
    split; [done|]. by intros [? _]. }
  unfold create_item, bind, read_db.
  destruct db as [|first rest]; [split; [by intros [e ?]|by intros [? _]]|].
  rewrite <- Hnil. destruct (truthy_ids (first :: rest)) as [|x l]; simpl.
  - split; [done|eauto].
  - split; [by intros [e ?]|by intros [_ ?]].
Qed.

(** * Further properties of the handlers *)

(** ** Get *)

Lemma get_item_found (db : list Item) (item_id : Z) i item :
  enumerate_find item_id db 0 = Some (i, item) →
  get_item item_id db = (Return item, db).
Proof. intros H. unfold get_item, bind, read_db. by rewrite H. Qed.

Lemma get_item_absent (db : list Item) (item_id : Z) :
  enumerate_find item_id db 0 = None →
  get_item item_id db = (Raise not_found, db).
Proof. intros H. unfold get_item, bind, read_db. by rewrite H. Qed.

(** X1: Get returns exactly when some stored item has the id; what it
    returns is the first stored item of that id; and it raises the 404
    exactly when no stored item has the id. *)
Theorem get_item_returns_iff (db : list Item) (item_id : Z) :
  ((∃ item, get_item item_id db = (Return item, db))
   ↔ ∃ x, x ∈ db ∧ id x = Some item_id)
  ∧ (∀ item, get_item item_id db = (Return item, db) →
       ∃ i, db !! i = Some item ∧ first_match item_id db i)
  ∧ (get_item item_id db = (Raise not_found, db)
     ↔ ∀ x, x ∈ db → id x ≠ Some item_id).
Proof.
  destruct (enumerate_find item_id db 0) as [[i first]|] eqn:E.
  - rewrite (get_item_found _ _ _ _ E).
    pose proof E as (Hi & Hfirst)%enumerate_find_Some.
    destruct Hfirst as [(x & Hx & Hid) Hleast].
    split_and!.
    + split; [|eauto]. intros _. exists x. split; [|done].
      by eapply list_elem_of_lookup_2.
    + intros item [= <-]. exists i. by repeat split; eauto.
    + split; [done|]. intros Habs. exfalso.
      eapply Habs; [|exact Hid]. by eapply list_elem_of_lookup_2.
  - rewrite (get_item_absent _ _ E).
    pose proof (proj1 (enumerate_find_None _ _) E) as Habs.
    split_and!.
    + split; [by intros [? ?]|]. intros (x & Hx & Hid). by destruct (Habs x).
    + by intros item ?.
    + done.
Qed.

(** X2: when the stored ids are pairwise distinct, Get of the id of a
    stored item returns that very item. *)
Theorem get_item_unique (db : list Item) (item_id : Z) (item : Item) :
  NoDup (ids db) → item ∈ db → id item = Some item_id →
  get_item item_id db = (Return item, db).
Proof.
  intros Hdup Hin Hid.
  destruct (enumerate_find_elem_of item_id db item Hin Hid)
    as (i & first & Hfind & Hi & [(x & Hx & Hxid) _]).
  assert (x = first) as -> by congruence.
  apply list_elem_of_lookup_1 in Hin as [j Hj].
  assert (i = j) as ->.
  { apply (NoDup_lookup (ids db) i j (Some item_id)); [done|..];
      unfold ids; rewrite list_lookup_fmap.
    - by rewrite Hi; simpl; rewrite Hxid.
    - by rewrite Hj; simpl; rewrite Hid. }
  assert (first = item) as -> by congruence.
  by eapply get_item_found.
Qed.

Lemma get_item_unique_witness :
  get_item 2 items_db
  = (Return (mkItem (Some 2%Z) "Mouse" (Some "Une souris sans fil") 29.99
               true), items_db).
Proof.
  apply (get_item_unique items_db 2).
  - apply (bool_decide_unpack _). vm_compute. exact I.
  - unfold items_db. right. left.
  - reflexivity.
Defined.

(** ** Update *)

(** After the replacement the loop stops at the same position, on the
    replacement. *)
Lemma enumerate_find_insert (db : list Item) (item_id : Z) i (y : Item) :
  first_match item_id db i → id y = Some item_id →
  enumerate_find item_id (<[i := y]> db) 0 = Some (i, y).
Proof.
  intros [(x & Hx & Hid) Hleast] Hy. apply enumerate_find_Some.
  assert (Hi : <[i := y]> db !! i = Some y).
  { apply list_lookup_insert_eq. by eapply lookup_lt_Some. }
  split; [done|]. split; [eauto|].
  intros j z Hj Hz. rewrite list_lookup_insert_ne in Hz by lia. eauto.
Qed.

(** X3: after an Update that returned, Get of the same id returns the
    stored replacement: the payload with its id forced to the given one. *)
Theorem update_then_get (db : list Item) (item_id : Z) (r : Item) :
  (∃ item, item ∈ db ∧ id item = Some item_id) →
  ∃ db', update_item item_id r db = (Return (set_id r (Some item_id)), db')
         ∧ get_item item_id db' = (Return (set_id r (Some item_id)), db').
Proof.
  intros (item & Hin & Hid).
  destruct (enumerate_find_elem_of item_id db item Hin Hid)
    as (i & first & Hfind & Hi & Hfirst).
  exists (<[i := set_id r (Some item_id)]> db). split.
  - by eapply update_item_found.
  - eapply get_item_found. by apply enumerate_find_insert.
Qed.

Lemma update_then_get_witness :
  ∃ db', update_item 1 (mkItem None "Gaming Laptop" None 1499.99 true)
           items_db
         = (Return (set_id (mkItem None "Gaming Laptop" None 1499.99 true)
                           (Some 1%Z)), db')
         ∧ get_item 1 db'
           = (Return (set_id (mkItem None "Gaming Laptop" None 1499.99 true)
                             (Some 1%Z)), db').
Proof.
  apply (update_then_get items_db 1).
  exists (mkItem (Some 1%Z) "Laptop" (Some "Un ordinateur portable") 999.99
            true).
  split; [|reflexivity]. unfold items_db. left.
Defined.

Lemma update_item_ids (db : list Item) (item_id : Z) (r : Item) :
  ids (update_item item_id r db).2 = ids db.
Proof.
  destruct (enumerate_find item_id db 0) as [[i first]|] eqn:E.
  - erewrite update_item_found by done. simpl.
    apply enumerate_find_Some in E as (Hi & ((x & Hx & Hid) & _)).
    unfold ids. rewrite list_fmap_insert. apply list_insert_id.
    by rewrite list_lookup_fmap, Hx; simpl; rewrite Hid.
  - by rewrite update_item_absent.
Qed.

Lemma store_invariant_ids (db db' : list Item) :
  ids db' `sublist_of` ids db → store_invariant db → store_invariant db'.
Proof.
  intros Hsub [Hnn Hdup]. split.
  - apply Forall_forall. intros x Hx Hnone.
    assert (None ∈ ids db).
    { eapply elem_of_sublist; [|exact Hsub].
      apply list_elem_of_fmap. eauto. }
    apply list_elem_of_fmap in H as (y & Hy & Hin).
    by eapply (proj1 (Forall_forall _ _) Hnn y).
  - by eapply sublist_NoDup.
Qed.

(** X4: Update, whether it returns or raises, leaves the sequence of
    stored ids (and so the length of the store) as it was; a store whose
    ids are non-null and unique stays so. *)
Theorem update_item_keeps_ids (db : list Item) (item_id : Z) (r : Item) :
  ids (update_item item_id r db).2 = ids db
  ∧ length (update_item item_id r db).2 = length db
  ∧ (store_invariant db → store_invariant (update_item item_id r db).2).
Proof.
  pose proof (update_item_ids db item_id r) as Hids. split_and!.
  - done.
  - apply (f_equal length) in Hids. unfold ids in Hids.
    by rewrite !length_fmap in Hids.
  - apply store_invariant_ids. by rewrite Hids.
Qed.

(** X5: the last Update wins: updating an id twice leaves the store, and
    returns, what the second Update alone does; in particular repeating an
    Update changes nothing. *)
Theorem update_item_twice (db : list Item) (item_id : Z) (r1 r2 : Item) :
  update_item item_id r2 (update_item item_id r1 db).2
  = update_item item_id r2 db.
Proof.
  destruct (enumerate_find item_id db 0) as [[i first]|] eqn:E.
  - rewrite (update_item_found _ _ r1 _ _ E),
      (update_item_found _ _ r2 _ _ E). simpl.
    apply enumerate_find_Some in E as (Hi & Hfirst).
    erewrite update_item_found
      by (by apply enumerate_find_insert).
    by rewrite list_insert_insert_eq.
  - by rewrite (update_item_absent _ _ r1 E).
Qed.

(** ** Delete *)

Lemma delete_item_ids (db : list Item) (item_id : Z) :
  ids (delete_item item_id db).2 `sublist_of` ids db.
Proof.
  destruct (enumerate_find item_id db 0) as [[i first]|] eqn:E.
  - erewrite delete_item_found by done. simpl. unfold ids.
    rewrite list_fmap_delete. apply sublist_delete.
  - by rewrite delete_item_absent.
Qed.

(** With distinct ids, removing the item at [i] removes its id. *)
Lemma delete_removes_id (db : list Item) (item_id : Z) i first :
  NoDup (ids db) → db !! i = Some first → id first = Some item_id →
  ∀ x, x ∈ delete i db → id x ≠ Some item_id.
Proof.
  intros Hdup Hi Hid x [j Hj]%list_elem_of_lookup_1 Hx.
  rewrite list_lookup_delete in Hj.
  assert (Hids : ∀ k y, db !! k = Some y → id y = Some item_id →
                        ids db !! k = Some (Some item_id)).
  { intros k y Hk Hy. unfold ids. by rewrite list_lookup_fmap, Hk; simpl;
      rewrite Hy. }
  pose proof (NoDup_lookup _ _ _ _ Hdup (Hids _ _ Hi Hid) (Hids _ _ Hj Hx)).
  case_decide; lia.
Qed.

(** X6: when the stored ids are pairwise distinct, a Delete that found
    its id leaves no item of that id: Get of the id then raises the 404, and
    so does a second Delete. *)
Theorem delete_then_get (db : list Item) (item_id : Z) :
  NoDup (ids db) → (∃ item, item ∈ db ∧ id item = Some item_id) →
  ∃ d db', delete_item item_id db = (Return d, db')
    ∧ (∀ x, x ∈ db' → id x ≠ Some item_id)
    ∧ get_item item_id db' = (Raise not_found, db')
    ∧ delete_item item_id db' = (Raise not_found, db').
Proof.
  intros Hdup (item & Hin & Hid).
  destruct (enumerate_find_elem_of item_id db item Hin Hid)
    as (i & first & Hfind & Hi & [(x & Hx & Hxid) _]).
  assert (x = first) as -> by congruence.
  eexists _, (delete i db). split; [by eapply delete_item_found|].
  pose proof (delete_removes_id db item_id i first Hdup Hi Hxid) as Hgone.
  split; [done|]. apply enumerate_find_None in Hgone.
  split; [by apply get_item_absent|by apply delete_item_absent].
Qed.

Lemma delete_then_get_witness :
  ∃ d db', delete_item 2 items_db = (Return d, db')
    ∧ (∀ x, x ∈ db' → id x ≠ Some 2%Z)
    ∧ get_item 2 db' = (Raise not_found, db')
    ∧ delete_item 2 db' = (Raise not_found, db').
Proof.
  apply (delete_then_get items_db 2).
  - apply (bool_decide_unpack _). vm_compute. exact I.
  - exists (mkItem (Some 2%Z) "Mouse" (Some "Une souris sans fil") 29.99
              true).
    split; [|reflexivity]. unfold items_db. right. left.
Defined.

(** X7: whether it returns or raises, Delete leaves a subsequence of the
    stored ids, at most one shorter; a store whose ids are non-null and
    unique stays so. *)
Theorem delete_item_keeps_invariant (db : list Item) (item_id : Z) :
  ids (delete_item item_id db).2 `sublist_of` ids db
  ∧ length db ≤ S (length (delete_item item_id db).2)
  ∧ (store_invariant db → store_invariant (delete_item item_id db).2).
Proof.
  split_and!.
  - apply delete_item_ids.
  - destruct (enumerate_find item_id db 0) as [[i first]|] eqn:E.
    + erewrite delete_item_found by done. simpl.
      apply enumerate_find_Some in E as (Hi & _).
      rewrite length_delete by eauto. lia.
    + rewrite delete_item_absent by done. simpl. lia.
  - apply store_invariant_ids, delete_item_ids.
Qed.

(** ** Operations on one id leave the other ids alone *)

Section Frame.
Variable m : Z.

(** The item the loop stops at does not depend on the starting index. *)
Lemma enumerate_find_item (l : list Item) (k k' : nat) :
  snd <$> enumerate_find m l k = snd <$> enumerate_find m l k'.
Proof.
  revert k k'. induction l as [|x l IH]; intros k k'; [done|]. simpl.
  destruct (id_eq x m); [done|apply IH].
Qed.

Lemma enumerate_find_insert_other (l : list Item) (i k : nat) (y : Item) :
  (∀ x, l !! i = Some x → id_eq x m = false) → id_eq y m = false →
  enumerate_find m (<[i := y]> l) k = enumerate_find m l k.
Proof.
  revert i k. induction l as [|x l IH]; intros i k Hold Hy; [done|].
  destruct i as [|i]; simpl.
  - by rewrite Hy, (Hold x).
  - destruct (id_eq x m); [done|]. apply IH; [|done].
    intros z Hz. by apply Hold.
Qed.

Lemma enumerate_find_delete_other (l : list Item) (i k : nat) :
  (∀ x, l !! i = Some x → id_eq x m = false) →
  snd <$> enumerate_find m (delete i l) k = snd <$> enumerate_find m l k.
Proof.
  revert i k. induction l as [|x l IH]; intros i k Hold; [done|].
  destruct i as [|i]; simpl.
  - rewrite (Hold x) by done. apply enumerate_find_item.
  - destruct (id_eq x m); [done|]. apply IH.
    intros z Hz. by apply Hold.
Qed.

Lemma enumerate_find_app_found (l l' : list Item) (k : nat) p :
  enumerate_find m l k = Some p → enumerate_find m (l ++ l') k = Some p.
Proof.
  revert k. induction l as [|x l IH]; intros k; [done|]. simpl.
  destruct (id_eq x m); [done|apply IH].
Qed.

(** The outcome of Get is the item the loop stops at. *)
Lemma get_item_outcome_item (db : list Item) :
  (get_item m db).1
  = match snd <$> enumerate_find m db 0 with
    | Some item => Return item
    | None => Raise not_found
    end.
Proof.
  unfold get_item, bind, read_db.
  by destruct (enumerate_find m db 0) as [[i item]|].
Qed.
End Frame.

(** X8: Update and Delete of one id do not change what Get of any other
    id gives, whether they return or raise. *)
Theorem other_ids_untouched (db : list Item) (n m : Z) (r : Item) :
  n ≠ m →
  (get_item m (update_item n r db).2).1 = (get_item m db).1
  ∧ (get_item m (delete_item n db).2).1 = (get_item m db).1.
Proof.
  intros Hnm. rewrite !get_item_outcome_item.
  destruct (enumerate_find n db 0) as [[i first]|] eqn:E.
  - erewrite update_item_found, delete_item_found by done. simpl.
    apply enumerate_find_Some in E as (Hi & ((x & Hx & Hid) & _)).
    assert (Hold : ∀ z, db !! i = Some z → id_eq z m = false).
    { intros z Hz. apply id_eq_false. congruence. }
    rewrite enumerate_find_insert_other, enumerate_find_delete_other;
      [done|done|done|].
    apply id_eq_false. simpl. congruence.
  - by rewrite update_item_absent, delete_item_absent.
Qed.

Lemma other_ids_untouched_witness :
  (get_item 3 (update_item 1 (mkItem None "Gaming Laptop" None 1499.99 true)
                 items_db).2).1 = (get_item 3 items_db).1
  ∧ (get_item 3 (delete_item 1 items_db).2).1 = (get_item 3 items_db).1.
Proof. apply (other_ids_untouched items_db 1 3). lia. Defined.

(** X9: Create, whether it returns or raises, does not change what Get
    gives for an id that a stored item has. *)
Theorem create_keeps_stored (db : list Item) (item : Item) (m : Z) :
  (∃ x, x ∈ db ∧ id x = Some m) →
  (get_item m (create_item item db).2).1 = (get_item m db).1.
Proof.
  intros (x & Hx & Hid). rewrite !get_item_outcome_item.
  destruct (enumerate_find_elem_of m db x Hx Hid)
    as (i & first & Hfind & _).
  unfold create_item, bind, read_db.
  destruct db as [|y rest]; [by apply elem_of_nil in Hx|].
  destruct (py_max (truthy_ids (y :: rest))) as [k|e]; simpl fst; simpl snd;
    [|done].
  unfold write_db, ret. simpl snd.
  pose proof (enumerate_find_app_found m (y :: rest)
                [set_id item (Some (k + 1)%Z)] 0 _ Hfind) as Happ.
  simpl app in Happ. by rewrite Happ, Hfind.
Qed.

Lemma create_keeps_stored_witness :
  (get_item 2 (create_item (mkItem None "Monitor" None 399.99 true)
                 items_db).2).1 = (get_item 2 items_db).1.
Proof.
  apply (create_keeps_stored items_db).
  exists (mkItem (Some 2%Z) "Mouse" (Some "Une souris sans fil") 29.99 true).
  split; [|reflexivity]. unfold items_db. right. left.
Defined.

(** ** Create on any store *)

Lemma truthy_ids_elem (db : list Item) (j : Z) :
  j ∈ truthy_ids db ↔ ∃ x, x ∈ db ∧ id x = Some j ∧ j ≠ 0%Z.
Proof.
  induction db as [|y db IH]; simpl.
  - split; [by intros ?%elem_of_nil|]. by intros (x & ?%elem_of_nil & _).
  - destruct (id y) as [k|] eqn:Hy.
    + destruct (Z.eqb_spec k 0) as [->|Hk]; simpl.
      * rewrite IH. split.
        -- intros (x & Hx & ?). exists x. split; [by right|done].
        -- intros (x & [->|Hx]%elem_of_cons & Hid & Hj); [congruence|eauto].
      * rewrite elem_of_cons, IH. split.
        -- intros [->|(x & Hx & ?)].
           ++ exists y. split; [left|done].
           ++ exists x. split; [by right|done].
        -- intros (x & [->|Hx]%elem_of_cons & Hid & Hj).
           ++ left. congruence.
           ++ right. eauto.
    + rewrite IH. split.
      * intros (x & Hx & ?). exists x. split; [by right|done].
      * intros (x & [->|Hx]%elem_of_cons & Hid & Hj); [congruence|eauto].
Qed.

Lemma foldl_max_elem (x : Z) (r : list Z) : foldl Z.max x r ∈ x :: r.
Proof.
  revert x. induction r as [|z r IH]; intros x; simpl; [left|].
  pose proof (IH (Z.max x z)) as Hmax. rewrite !elem_of_cons.
  apply elem_of_cons in Hmax as [Heq|Hin]; [|auto].
  rewrite Heq. destruct (Z.max_spec x z) as [[_ ->]|[_ ->]]; auto.
Qed.

(** X10: on the empty store, and on every store that has an id other
    than [None] and 0, Create returns: the item is appended under an id that
    is 1 on the empty store and otherwise one more than a stored id, and
    that is above every nonzero stored id. *)
Theorem create_item_fresh (db : list Item) (item : Item) :
  db = [] ∨ (∃ x, x ∈ db ∧ truthy (id x) = true) →
  ∃ k, create_item item db
       = (Return (set_id item (Some k)), db ++ [set_id item (Some k)])
    ∧ (db = [] → k = 1%Z)
    ∧ (db ≠ [] → ∃ x, x ∈ db ∧ id x = Some (k - 1)%Z)
    ∧ ∀ x j, x ∈ db → id x = Some j → j ≠ 0%Z → (j < k)%Z.
Proof.
  intros [->|(x & Hx & Hid)].
  - exists 1%Z. split_and!; [done|done|done|].
    by intros x j ?%elem_of_nil.
  - apply truthy_Some in Hid as (j & Hid & Hj).
    assert (Hin : j ∈ truthy_ids db) by (apply truthy_ids_elem; eauto).
    unfold create_item, bind, read_db.
    destruct db as [|y rest]; [by apply elem_of_nil in Hx|].
    destruct (truthy_ids (y :: rest)) as [|z l] eqn:E;
      [by apply elem_of_nil in Hin|].
    exists (foldl Z.max z l + 1)%Z. split_and!; [done|done| |].
    + intros _. pose proof (foldl_max_elem z l) as Hmax.
      rewrite <- E in Hmax. apply truthy_ids_elem in Hmax as (w & ? & ? & _).
      exists w. split; [done|]. by replace (foldl Z.max z l + 1 - 1)%Z
        with (foldl Z.max z l) by lia.
    + intros w i Hw Hwid Hi.
      assert (Hi' : i ∈ z :: l) by (rewrite <- E; apply truthy_ids_elem; eauto).
      pose proof (max_default_le 0 _ _ Hi'). simpl in H. lia.
Qed.

Lemma create_item_fresh_witness :
  ∃ k, create_item (mkItem None "Monitor" None 399.99 true)
         [mkItem (Some 0%Z) "Plug" None 2.5 true;
          mkItem (Some 7%Z) "Cable" None 4.5 true]
       = (Return (set_id (mkItem None "Monitor" None 399.99 true) (Some k)),
          [mkItem (Some 0%Z) "Plug" None 2.5 true;
           mkItem (Some 7%Z) "Cable" None 4.5 true]
          ++ [set_id (mkItem None "Monitor" None 399.99 true) (Some k)])
    ∧ ([mkItem (Some 0%Z) "Plug" None 2.5 true;
        mkItem (Some 7%Z) "Cable" None 4.5 true] = [] → k = 1%Z)
    ∧ ([mkItem (Some 0%Z) "Plug" None 2.5 true;
        mkItem (Some 7%Z) "Cable" None 4.5 true] ≠ [] →
       ∃ x, x ∈ [mkItem (Some 0%Z) "Plug" None 2.5 true;
                 mkItem (Some 7%Z) "Cable" None 4.5 true]
            ∧ id x = Some (k - 1)%Z)
    ∧ ∀ x j, x ∈ [mkItem (Some 0%Z) "Plug" None 2.5 true;
                  mkItem (Some 7%Z) "Cable" None 4.5 true] →
             id x = Some j → j ≠ 0%Z → (j < k)%Z.
Proof.
  apply create_item_fresh. right.
  exists (mkItem (Some 7%Z) "Cable" None 4.5 true).
  split; [right; left|reflexivity].
Defined.

(** X11: Create raises exactly on the nonempty stores all of whose ids
    are [None] or 0; what it raises is [ValueError], and the store is left
    as it was. *)
Theorem create_item_value_error (db : list Item) (item : Item) :
  (create_item item db = (Raise ValueError, db)
   ↔ db ≠ [] ∧ Forall (λ i, truthy (id i) = false) db)
  ∧ ∀ e db', create_item item db = (Raise e, db') → e = ValueError ∧ db' = db.
Proof.
  assert (Hnil : truthy_ids db = [] ↔ Forall (λ i, truthy (id i) = false) db).
  { rewrite Forall_forall. split.
    - intros E x Hx. destruct (truthy (id x)) eqn:Hid; [|done].
      apply truthy_Some in Hid as (j & Hid & Hj).
      assert (j ∈ truthy_ids db) by (apply truthy_ids_elem; eauto).
      rewrite E in H. by apply elem_of_nil in H.
    - intros Hall. destruct (truthy_ids db) as [|j l] eqn:E; [done|].
      assert (j ∈ truthy_ids db) by (rewrite E; left).
      apply truthy_ids_elem in H as (x & Hx & Hid & Hj).
      specialize (Hall x Hx). rewrite Hid in Hall. simpl in Hall.
      apply negb_false_iff, Z.eqb_eq in Hall. lia. }
  unfold create_item, bind, read_db.
  destruct db as [|y rest].
  - split; [split; [done|by intros [? _]]|done].
  - rewrite <- Hnil. destruct (truthy_ids (y :: rest)) as [|z l]; simpl.
    + split; [done|]. by intros e db' [= <- <-].
    + split; [split; [done|by intros [_ ?]]|done].
Qed.

(** ** Create, then Delete *)

(** X12: on a store whose ids are all non-null and nonzero, Delete of
    the id Create has just returned removes the created item and gives the
    store back as it was, so that the next Create assigns the same id
    again. *)
Theorem create_then_delete (db : list Item) (a b : Item) :
  ids_truthy db →
  ∃ k d, create_item a db
         = (Return (set_id a (Some k)), db ++ [set_id a (Some k)])
    ∧ delete_item k (db ++ [set_id a (Some k)]) = (Return d, db)
    ∧ create_item b db
      = (Return (set_id b (Some k)), db ++ [set_id b (Some k)]).
Proof.
  intros Hdb. exists (next_id db). eexists. split_and!.
  - by apply create_item_truthy.
  - erewrite delete_item_found by apply enumerate_find_created.
    by rewrite delete_middle, app_nil_r.
  - by apply create_item_truthy.
Qed.

Lemma create_then_delete_witness :
  ∃ k d, create_item (mkItem None "Monitor" None 399.99 true) items_db
         = (Return (set_id (mkItem None "Monitor" None 399.99 true) (Some k)),
            items_db
            ++ [set_id (mkItem None "Monitor" None 399.99 true) (Some k)])
    ∧ delete_item k
        (items_db
         ++ [set_id (mkItem None "Monitor" None 399.99 true) (Some k)])
      = (Return d, items_db)
    ∧ create_item (mkItem None "Webcam" None 79.99 true) items_db
      = (Return (set_id (mkItem None "Webcam" None 79.99 true) (Some k)),
         items_db
         ++ [set_id (mkItem None "Webcam" None 79.99 true) (Some k)]).
Proof. apply create_then_delete. repeat constructor. Defined.

(** X13: the whole cycle on a store whose ids are all non-null and
    nonzero: Create, Get of the new id, Update of it, Delete of it each
    return, Get then raises the 404, and the store is back as it was. *)
Theorem crud_cycle (db : list Item) (a b : Item) :
  ids_truthy db →
  ∃ k d,
    let created := set_id a (Some k) in
    let updated := set_id b (Some k) in
    create_item a db = (Return created, db ++ [created])
    ∧ get_item k (db ++ [created]) = (Return created, db ++ [created])
    ∧ update_item k b (db ++ [created]) = (Return updated, db ++ [updated])
    ∧ delete_item k (db ++ [updated]) = (Return d, db)
    ∧ get_item k db = (Raise not_found, db).
Proof.
  intros Hdb. exists (next_id db). eexists. cbn zeta. split_and!.
  - by apply create_item_truthy.
  - eapply get_item_found, enumerate_find_created.
  - erewrite update_item_found by apply enumerate_find_created.
    do 2 f_equal.
    rewrite <- (Nat.add_0_r (length db)). by rewrite insert_app_r.
  - erewrite delete_item_found by apply enumerate_find_created.
    by rewrite delete_middle, app_nil_r.
  - apply get_item_absent, enumerate_find_None.
    intros x Hx Hid. pose proof (next_id_above db x _ Hx Hid). lia.
Qed.

Lemma crud_cycle_witness :
  ∃ k d,
    let created := set_id (mkItem None "Headphones" None 199.99 true)
                          (Some k) in
    let updated := set_id (mkItem None "Premium Headphones" None 299.99 false)
                          (Some k) in
    create_item (mkItem None "Headphones" None 199.99 true) items_db
    = (Return created, items_db ++ [created])
    ∧ get_item k (items_db ++ [created])
      = (Return created, items_db ++ [created])
    ∧ update_item k (mkItem None "Premium Headphones" None 299.99 false)
        (items_db ++ [created])
      = (Return updated, items_db ++ [updated])
    ∧ delete_item k (items_db ++ [updated]) = (Return d, items_db)
    ∧ get_item k items_db = (Raise not_found, items_db).
Proof. apply crud_cycle. repeat constructor. Defined.

(** ** A handler that raises has changed nothing *)

Lemma create_item_raise_store (db : list Item) (item : Item) (e : exn) :
  (create_item item db).1 = Raise e → (create_item item db).2 = db.
Proof.
  unfold create_item, bind, read_db. destruct db as [|y rest]; [done|].
  by destruct (py_max (truthy_ids (y :: rest))).
Qed.

Lemma exec_raise_store (db : list Item) (op : Op) (e : exn) :
  (exec op db).1 = Raise e → (exec op db).2 = db.
Proof.
  destruct op as [q|n|item|n r|n]; unfold exec;
    rewrite bind_ret_fst, bind_ret_snd; intros Hraise.
  - apply get_items_store.
  - apply get_item_store.
  - destruct (create_item item db).1 as [x|e'] eqn:Hc; [done|].
    by eapply create_item_raise_store.
  - destruct (enumerate_find n db 0) as [[i first]|] eqn:E.
    + by erewrite update_item_found in Hraise.
    + by rewrite update_item_absent.
  - destruct (enumerate_find n db 0) as [[i first]|] eqn:E.
    + by erewrite delete_item_found in Hraise.
    + by rewrite delete_item_absent.
Qed.

(** X14: a request that ends in an exception, whichever it is (the 404,
    a refused body, or the [ValueError] of id generation), leaves the store
    exactly as it was. *)
Theorem raise_leaves_store (db : list Item) (r : Request) (e : exn) :
  (handle r db).1 = Raise e → (handle r db).2 = db.
Proof.
  unfold handle. destruct (route r) as [op|e']; [|done].
  apply exec_raise_store.
Qed.

Lemma raise_leaves_store_witness :
  (handle (POST_items (mkBody None (Some "Monitor"%string) None
                         (Some 399.99%float) None))
     [mkItem (Some 0%Z) "Plug" None 2.5 true]).2
  = [mkItem (Some 0%Z) "Plug" None 2.5 true].
Proof.
  apply (raise_leaves_store _ _ ValueError). reflexivity.
Defined.

(** ** From the seed, and from the test fixture *)

Lemma handle_outcome_known (db : list Item) (r : Request) :
  ids_truthy db → returns_or_known_error (handle r db).1.
Proof.
  intros Hdb. unfold handle. destruct (route r) as [op|e] eqn:Hroute.
  - destruct (exec_outcome db op Hdb) as [H|H].
    + by destruct (exec op db).1.
    + rewrite H. simpl. eauto.
  - assert (e = RequestValidationError) as ->.
    { destruct r as [q|n|body|n body|n]; simpl in Hroute; try done;
        unfold Item_of_body in Hroute;
        destruct (body_name body), (body_price body); congruence. }
    simpl. eauto.
Qed.

Lemma reset_db_store (db : list Item) : (reset_db db).2 = items_db.
Proof. reflexivity. Qed.

(** X15: whatever the store was, once the fixture [reset_db] has run,
    every store that a sequence of operations leads to has positive,
    pairwise distinct ids; there every request returns or fails with
    NotFound or ValidationError, and List and Create return: the
    [ValueError] of id generation cannot be reached. *)
Theorem after_reset_no_fatal_error (db0 : list Item) (ops : list Op) :
  positive_unique (run ops (reset_db db0).2)
  ∧ no_fatal_error (run ops (reset_db db0).2).
Proof.
  rewrite reset_db_store.
  pose proof (run_positive_unique ops _ items_db_positive_unique) as Hpos.
  split; [done|]. apply positive_unique_truthy in Hpos. split_and!.
  - intros r. by apply handle_outcome_known.
  - intros q. by destruct q.
  - intros item. by rewrite create_item_truthy.
Qed.

(** ** List with the two filters *)

Lemma comprehension_complement {A} (c c' : A → bool) (l : list A) :
  (∀ x, c' x = negb (c x)) →
  comprehension c l ++ comprehension c' l ≡ₚ l.
Proof.
  intros Hc. induction l as [|x l IH]; [done|]. simpl. rewrite Hc.
  destruct (c x); simpl.
  - by rewrite IH.
  - by rewrite <- Permutation_middle, IH.
Qed.

(** X16: the in-stock and the out-of-stock listings split the store:
    together they hold every stored item exactly once. *)
Theorem get_items_partition (db : list Item) :
  ∃ yes no,
    get_items (Some true) db = (Return yes, db)
    ∧ get_items (Some false) db = (Return no, db)
    ∧ yes ++ no ≡ₚ db
    ∧ length yes + length no = length db
    ∧ ∀ x, x ∈ db ↔ x ∈ yes ∨ x ∈ no.
Proof.
  eexists _, _. split; [reflexivity|]. split; [reflexivity|].
  assert (Hperm :
    comprehension (λ item, eqb (in_stock item) true) db
    ++ comprehension (λ item, eqb (in_stock item) false) db ≡ₚ db).
  { apply comprehension_complement. intros x. by destruct (in_stock x). }
  split_and!.
  - done.
  - by rewrite <- length_app, Hperm.
  - intros x. by rewrite <- elem_of_app, Hperm.
Qed.

(** ** The id of a payload *)

Lemma set_id_set_id (item : Item) (v w : option Z) :
  set_id (set_id item v) w = set_id item w.
Proof. done. Qed.

(** X17: the id a payload carries plays no part: Create and Update give
    the same result and the same store whatever id the payload has. *)
Theorem payload_id_ignored (db : list Item) (item : Item) (n : Z)
    (v : option Z) :
  create_item (set_id item v) db = create_item item db
  ∧ update_item n (set_id item v) db = update_item n item db.
Proof.
  split.
  - unfold create_item, bind, read_db. destruct db as [|y rest]; [done|].
    by destruct (py_max (truthy_ids (y :: rest))).
  - unfold update_item, bind, read_db.
    by destruct (enumerate_find n db 0) as [[i first]|].
Qed.

(** ** The scenarios of the test suite, on the seed *)

Example seed_scenario :
  (get_items None items_db).1 = Return items_db
  ∧ (get_items (Some false) items_db).1
    = Return [mkItem (Some 3%Z) "Keyboard" (Some "Un clavier mécanique")
                149.99 false]
  ∧ (get_item 999 items_db).1 = Raise (HTTPException 404 "Item non trouvé")
  ∧ (handle (POST_items (mkBody None (Some "Webcam"%string) None
                           (Some 79.99%float) None)) items_db).1
    = Return (AnItem (mkItem (Some 4%Z) "Webcam" None 79.99 true))
  ∧ (handle (POST_items (mkBody None (Some "Invalid"%string) None None
                           None)) items_db).1
    = Raise RequestValidationError
  ∧ (get_item 2 (delete_item 2 items_db).2).1 = Raise not_found
  ∧ health_check items_db
    = (Return (mkHealthResponse "healthy" "1.0.0"), items_db).
Proof. repeat split. Qed.
